(** * Node state machine of the bedlam gossip node (src/src/node.rs)

    A shallow embedding of [Node::initialize], [Node::run] and
    [Node::send_to].  The node loop is modelled one event at a time
    ([step]); a run over a finite prefix of the event channel is [run],
    and the whole process (handshake, then loop) is [program].

    Modelling choices, all following the Rust types:
    - [String] is [string], [i32] values are [Z], [usize] counters are
      [nat] (the counter would need 2^64 sends to overflow; that is not
      modelled);
    - [HashMap] is stdpp's [gmap], [HashSet<i32>] is [gset Z]; iteration
      over a [HashSet] happens in an unspecified order, modelled by
      [elements];
    - a [panic!] or a failed [expect] aborts the process ([Panicked]);
    - serialization and write errors of [send_to] are not modelled: every
      send succeeds and emits exactly one message. *)

From Stdlib Require Import ZArith.
From stdpp Require Import base gmap sets list strings pretty.

(** ** Messages (src/src/messages.rs) *)

Inductive ExternalPayload :=
| Init (init_node_id : string) (init_node_ids : list string)
| InitOk
| Echo (echo : string)
| EchoOk (echo : string)
| Generate
| GenerateOk (id : string)
| Broadcast (value : Z)
| BroadcastOk
| Read
| ReadOk (messages : list Z)
| Topology (topology : gmap string (list string))
| TopologyOk
| Gossip (messages : list Z).

Record Body := mkBody {
  msg_id : option nat;
  in_reply_to : option nat;
  payload : ExternalPayload
}.

Record Message := mkMessage {
  src : string;
  dst : string;
  body : Body
}.

Inductive InternalPayload := Timer | Eof.

Inductive Event :=
| Internal (p : InternalPayload)
| External (message : Message).

(** ** Node state (src/src/node.rs, [struct Node]) *)

Record Node := mkNode {
  node_id : string;
  cluster : list string;
  topology : gmap string (list string);
  uniq_msg_id : nat;
  broadcast_ids : gset Z;
  known_ids : gmap string (gset Z)
}.

(** [Node::new] *)
Definition new_node : Node := mkNode "" [] ∅ 0 ∅ ∅.

(** [Node::send_to]: the message takes the current counter as its
    [msg_id], and the counter is incremented. *)
Definition send_to (n : Node) (to : string) (irt : option nat)
    (p : ExternalPayload) : Node * Message :=
  (mkNode (node_id n) (cluster n) (topology n) (S (uniq_msg_id n))
     (broadcast_ids n) (known_ids n),
   mkMessage (node_id n) to (mkBody (Some (uniq_msg_id n)) irt p)).

(** [Node::initialize]: the first event must be an [init] message; any
    other first event hits [panic!("expected init message")]. *)
Definition initialize (n : Node) (e : Event) : option (Node * Message) :=
  match e with
  | External message =>
      match payload (body message) with
      | Init nid nids =>
          let reply :=
            mkMessage nid (src message)
              (mkBody (Some (uniq_msg_id n)) (msg_id (body message)) InitOk) in
          let topo : gmap string (list string) := <[nid := nids]> ∅ in
          let known : gmap string (gset Z) := <[nid := ∅]> ∅ in
          Some (mkNode nid nids topo (S (uniq_msg_id n)) (broadcast_ids n) known,
                reply)
      | _ => None
      end
  | Internal _ => None
  end.

(** The values of the broadcast set that [known] does not contain, in the
    iteration order of the set (the inner [filter] of the timer branch). *)
Definition pending (bids known : gset Z) : list Z :=
  filter (λ v, v ∉ known) (elements bids).

(** The [filter_map] computing [gossip_targets] in the timer branch.  The
    [expect("always have a known_for bucket")] runs for every value of the
    broadcast set, so (the branch being taken only when that set is
    non-empty) a destination without a bucket aborts. *)
Fixpoint gossip_targets (bids : gset Z) (known : gmap string (gset Z))
    (dests : list string) : option (list (string * list Z)) :=
  match dests with
  | [] => Some []
  | d :: ds =>
      match known !! d with
      | None => None
      | Some k =>
          match gossip_targets bids known ds with
          | None => None
          | Some rest =>
              match pending bids k with
              | [] => Some rest
              | msgs => Some ((d, msgs) :: rest)
              end
          end
      end
  end.

(** The [for (dest, messages) in gossip_targets] loop: one [send_to] per
    target, with no [in_reply_to]. *)
Fixpoint send_gossip (n : Node) (targets : list (string * list Z))
    : Node * list Message :=
  match targets with
  | [] => (n, [])
  | (d, msgs) :: rest =>
      let (n1, m) := send_to n d None (Gossip msgs) in
      let (n2, ms) := send_gossip n1 rest in
      (n2, m :: ms)
  end.

(** [self.known_ids.clear()] followed by one empty set per key of the new
    topology other than [self.node_id]. *)
Definition reseed_known (self : string) (t : gmap string (list string))
    : gmap string (gset Z) :=
  fold_left (λ m k, <[k := ∅]> m)
    (filter (λ k, k ≠ self) (map fst (map_to_list t))) ∅.

Definition with_broadcast_ids (n : Node) (b : gset Z) : Node :=
  mkNode (node_id n) (cluster n) (topology n) (uniq_msg_id n) b (known_ids n).

Definition with_topology (n : Node) (t : gmap string (list string))
    (k : gmap string (gset Z)) : Node :=
  mkNode (node_id n) (cluster n) t (uniq_msg_id n) (broadcast_ids n) k.

Definition with_known_ids (n : Node) (b : gset Z) (k : gmap string (gset Z))
    : Node :=
  mkNode (node_id n) (cluster n) (topology n) (uniq_msg_id n) b k.

(** Outcome of handling one event in the loop of [Node::run]. *)
Inductive StepResult :=
| Panicked
| Finished
| Stepped (n : Node) (out : list Message).

Definition reply (n : Node) (m : Message) (p : ExternalPayload) : StepResult :=
  let (n', r) := send_to n (src m) (msg_id (body m)) p in Stepped n' [r].

(** The body of the [loop] in [Node::run]. *)
Definition step (n : Node) (e : Event) : StepResult :=
  match e with
  | Internal Timer =>
      if decide (broadcast_ids n = ∅) then Stepped n []
      else
        match topology n !! node_id n with
        | None => Panicked
        | Some dests =>
            match gossip_targets (broadcast_ids n) (known_ids n) dests with
            | None => Panicked
            | Some targets =>
                let (n', out) := send_gossip n targets in Stepped n' out
            end
        end
  | Internal Eof => Finished
  | External m =>
      match payload (body m) with
      | Init _ _ => Panicked
      | Echo e => reply n m (EchoOk e)
      | Generate =>
          reply n m (GenerateOk (node_id n +:+ "-" +:+ pretty (uniq_msg_id n)))
      | Broadcast v =>
          let (n', r) := send_to n (src m) (msg_id (body m)) BroadcastOk in
          Stepped (with_broadcast_ids n' ({[v]} ∪ broadcast_ids n')) [r]
      | Topology t =>
          reply (with_topology n t (reseed_known (node_id n) t)) m TopologyOk
      | Read => reply n m (ReadOk (elements (broadcast_ids n)))
      | Gossip ms =>
          let bids := broadcast_ids n ∪ list_to_set ms in
          match known_ids n !! src m with
          | None => Panicked
          | Some k => Stepped (with_known_ids n bids
                                 (<[src m := k ∪ list_to_set ms]> (known_ids n))) []
          end
      | ReadOk _ | InitOk | EchoOk _ | GenerateOk _ | BroadcastOk | TopologyOk =>
          Stepped n []
      end
  end.

(** Where the loop is after a finite prefix of the event channel. *)
Inductive Status :=
| Waiting (n : Node)
| Terminated (n : Node)
| Aborted.

(** [Node::run] over a finite prefix of the channel: the messages written
    to the output and the resulting status. *)
Fixpoint run (n : Node) (evs : list Event) : list Message * Status :=
  match evs with
  | [] => ([], Waiting n)
  | e :: es =>
      match step n e with
      | Panicked => ([], Aborted)
      | Finished => ([], Terminated n)
      | Stepped n' out =>
          let (out', st) := run n' es in (out ++ out', st)
      end
  end.

(** [main]: [Node::new(..).initialize()?.run()]. *)
Definition program (evs : list Event) : list Message * Status :=
  match evs with
  | [] => ([], Waiting new_node)
  | e :: es =>
      match initialize new_node e with
      | None => ([], Aborted)
      | Some (n, r) => let (out, st) := run n es in (r :: out, st)
      end
  end.

(** ** Concrete scenario *)

Definition client_msg (from : string) (id : nat) (p : ExternalPayload) : Event :=
  External (mkMessage from "n1" (mkBody (Some id) None p)).

Definition init_n1 : Event := client_msg "c0" 0 (Init "n1" ["n1"; "n2"]).

Example pretty_12 : pretty (12 : nat) = "12".
Proof. reflexivity. Qed.


(** ** Shape of the loop's outputs *)

Definition ids (l : list Message) : list (option nat) :=
  map (λ g, msg_id (body g)) l.

Definition with_uniq (n : Node) (k : nat) : Node :=
  mkNode (node_id n) (cluster n) (topology n) k (broadcast_ids n) (known_ids n).

Lemma send_gossip_props n ts n' out :
  send_gossip n ts = (n', out) →
  n' = with_uniq n (uniq_msg_id n + length ts) ∧
  ids out = map Some (seq (uniq_msg_id n) (length ts)) ∧
  Forall2 (λ (t : string * list Z) g,
             g = mkMessage (node_id n) t.1 (mkBody (msg_id (body g)) None (Gossip t.2)))
          ts out.
Proof.
  revert n n' out. induction ts as [|[d ms] ts IH]; intros n n' out H; simpl in H.
  - injection H as <- <-. unfold with_uniq. destruct n; simpl.
    rewrite Nat.add_0_r. repeat split; constructor.
  - destruct (send_gossip _ ts) as [n2 ms2] eqn:E. injection H as <- <-.
    destruct (IH _ _ _ E) as (Hn & Hids & Hf). simpl in *.
    subst n2. split; [|split].
    + unfold with_uniq; simpl. f_equal. lia.
    + simpl. rewrite Hids. do 2 f_equal.
    + constructor; [reflexivity|]. exact Hf.
Qed.

Ltac step_inv H :=
  unfold step, reply, send_to in H; simpl in H;
  repeat (case_match; simplify_eq/=); try discriminate.

(** Every step numbers its outputs with consecutive counter values and
    advances the counter by the number of messages sent. *)
Lemma step_counter n e n' out :
  step n e = Stepped n' out →
  ids out = map Some (seq (uniq_msg_id n) (length out)) ∧
  uniq_msg_id n' = uniq_msg_id n + length out.
Proof.
  intros H. destruct e as [[]|m].
  - unfold step in H. case_decide; [simplify_eq/=; split; [done|lia]|].
    repeat case_match; simplify_eq/=.
    match goal with E : send_gossip _ _ = _ |- _ =>
      destruct (send_gossip_props _ _ _ _ E) as (-> & Hids & Hf) end.
    rewrite (Forall2_length _ _ _ Hf) in Hids |- *. simpl. split; [done|lia].
  - discriminate.
  - unfold step, reply, send_to in H; simpl in H.
    repeat case_match; simplify_eq/=; split; try done; lia.
Qed.

Lemma run_counter n evs :
  ids (fst (run n evs)) = map Some (seq (uniq_msg_id n) (length (fst (run n evs)))).
Proof.
  revert n. induction evs as [|e es IH]; intros n; simpl; [done|].
  destruct (step n e) as [| |n' out] eqn:E; simpl; try done.
  destruct (step_counter _ _ _ _ E) as [Hids Hu].
  specialize (IH n'). destruct (run n' es) as [out' st]; simpl in *.
  unfold ids in *. rewrite map_app, Hids, IH, Hu, length_app, seq_app, map_app.
  done.
Qed.

Definition status_node (s : Status) : option Node :=
  match s with Waiting n | Terminated n => Some n | Aborted => None end.

Lemma fold_insert_empty_lookup (ks : list string) (m0 : gmap string (gset Z)) k :
  fold_left (λ m k, <[k := ∅]> m) ks m0 !! k =
  if decide (k ∈ ks) then Some ∅ else m0 !! k.
Proof.
  revert m0. induction ks as [|k' ks IH]; intros m0; cbn [fold_left].
  - case_decide; [set_solver|done].
  - rewrite IH. destruct (decide (k ∈ ks)) as [H1|H1],
      (decide (k ∈ k' :: ks)) as [H2|H2].
    + done.
    + exfalso. set_solver.
    + assert (k = k') as -> by set_solver. by rewrite lookup_insert_eq.
    + rewrite lookup_insert_ne; [done|]. set_solver.
Qed.

Lemma reseed_known_lookup self (t : gmap string (list string)) k :
  reseed_known self t !! k =
  if decide (k ≠ self ∧ k ∈ dom t) then Some ∅ else None.
Proof.
  unfold reseed_known. rewrite fold_insert_empty_lookup, lookup_empty.
  assert (Hiff : k ∈ filter (λ k, k ≠ self) (map fst (map_to_list t)) ↔
                 k ≠ self ∧ k ∈ dom t).
  { rewrite list_elem_of_filter, elem_of_dom. split.
    - intros [Hne Hin]. split; [done|].
      apply list_elem_of_fmap in Hin as ([k' v] & -> & Hkv).
      apply elem_of_map_to_list in Hkv. simpl. by eexists.
    - intros [Hne [v Hv]]. split; [done|].
      apply list_elem_of_fmap. exists (k, v). split; [done|].
      by apply elem_of_map_to_list. }
  do 2 case_decide; tauto.
Qed.

Lemma step_bids_mono n e n' out :
  step n e = Stepped n' out → broadcast_ids n ⊆ broadcast_ids n'.
Proof.
  intros H. destruct e as [[]|m].
  - unfold step in H. case_decide; [simplify_eq/=; done|].
    repeat case_match; simplify_eq/=.
    match goal with E : send_gossip _ _ = _ |- _ =>
      destruct (send_gossip_props _ _ _ _ E) as (-> & _ & _) end. done.
  - discriminate.
  - unfold step, reply, send_to in H; simpl in H.
    repeat case_match; simplify_eq/=; set_solver.
Qed.

Lemma run_bids_mono n evs n' :
  status_node (snd (run n evs)) = Some n' → broadcast_ids n ⊆ broadcast_ids n'.
Proof.
  revert n. induction evs as [|e es IH]; intros n H; simpl in H.
  - by simplify_eq/=.
  - destruct (step n e) as [| |n1 out] eqn:E; simpl in H; try by simplify_eq/=.
    destruct (run n1 es) as [out' st] eqn:Er; simpl in H.
    transitivity (broadcast_ids n1); [by eapply step_bids_mono|].
    apply IH. by rewrite Er.
Qed.

(** A [generate_ok] sent by a node [n] carries the id
    [node_id n ++ "-" ++ k] where [k] is the [msg_id] of that reply. *)
Definition generate_ok_shape (nid : string) (g : Message) : Prop :=
  src g = nid ∧
  ∀ id, payload (body g) = GenerateOk id →
        ∃ k, msg_id (body g) = Some k ∧ id = nid +:+ "-" +:+ pretty k.

Lemma step_generate_shape n e n' out :
  step n e = Stepped n' out →
  node_id n' = node_id n ∧ Forall (generate_ok_shape (node_id n)) out.
Proof.
  intros H. destruct e as [[]|m].
  - unfold step in H. case_decide; [simplify_eq/=; done|].
    repeat case_match; simplify_eq/=.
    match goal with E : send_gossip _ _ = _ |- _ =>
      destruct (send_gossip_props _ _ _ _ E) as (-> & _ & Hf) end.
    split; [done|]. clear -Hf. induction Hf as [|[d ms] g ts out Hg _ IH];
      constructor; [|done].
    rewrite Hg. split; [done|]. simpl. discriminate.
  - discriminate.
  - unfold step, reply, send_to in H; simpl in H.
    repeat case_match; simplify_eq/=; (split; [done|]);
      repeat constructor; simpl; try discriminate.
    intros id Hid. simplify_eq. eauto.
Qed.

Lemma run_generate_shape n evs :
  Forall (generate_ok_shape (node_id n)) (fst (run n evs)).
Proof.
  revert n. induction evs as [|e es IH]; intros n; simpl; [done|].
  destruct (step n e) as [| |n' out] eqn:E; simpl; try done.
  destruct (step_generate_shape _ _ _ _ E) as [Hid Hout].
  specialize (IH n'). rewrite Hid in IH.
  destruct (run n' es) as [out' st]; simpl in *. by apply Forall_app.
Qed.

Lemma program_generate_shape m0 nid nids es :
  payload (body m0) = Init nid nids →
  Forall (generate_ok_shape nid) (fst (program (External m0 :: es))).
Proof.
  intros Hp. unfold program, initialize. rewrite Hp.
  pose proof (run_generate_shape
    (mkNode nid nids (<[nid := nids]> ∅) 1 ∅ (<[nid := ∅]> ∅)) es) as Hr.
  destruct (run _ es) as [out st]. simpl in *. constructor; [|done].
  split; [done|]. discriminate.
Qed.

Definition is_topology (e : Event) : bool :=
  match e with
  | External m => match payload (body m) with Topology _ => true | _ => false end
  | Internal _ => false
  end.

(** A topology message whose mapping has a key for [nid]; every other
    event passes. *)
Definition keeps_self (nid : string) (e : Event) : bool :=
  match e with
  | External m =>
      match payload (body m) with
      | Topology t => bool_decide (nid ∈ dom t)
      | _ => true
      end
  | Internal _ => true
  end.

Lemma gossip_targets_in bids known dests ts d ps :
  gossip_targets bids known dests = Some ts → (d, ps) ∈ ts →
  ∃ k, known !! d = Some k ∧ ps = pending bids k.
Proof.
  revert ts. induction dests as [|d' ds IH]; intros ts H Hin; simpl in H.
  - simplify_eq. set_solver.
  - destruct (known !! d') as [k|] eqn:Ek; [|done].
    destruct (gossip_targets bids known ds) as [rest|] eqn:Er; [|done].
    destruct (pending bids k) as [|x xs] eqn:Ep; injection H as <-.
    + by apply (IH rest).
    + apply elem_of_cons in Hin as [Heq|Hin].
      * simplify_eq. eauto.
      * by apply (IH rest).
Qed.

Lemma pending_not_known bids k v : v ∈ k → v ∉ pending bids k.
Proof. intros Hv. unfold pending. rewrite list_elem_of_filter. tauto. Qed.

(** Outside topology messages, a value recorded as known by [D] stays
    recorded, and no gossip sent to [D] carries it. *)
Lemma step_no_gossip_back n e n' out D k v :
  is_topology e = false → known_ids n !! D = Some k → v ∈ k →
  step n e = Stepped n' out →
  (∃ k', known_ids n' !! D = Some k' ∧ v ∈ k') ∧
  (∀ g ps, g ∈ out → dst g = D → payload (body g) = Gossip ps → v ∉ ps).
Proof.
  intros Ht Hk Hv H. destruct e as [[]|m].
  - unfold step in H. case_decide; [simplify_eq/=; split; [eauto|set_solver]|].
    destruct (topology n !! node_id n) as [dests|]; [|done].
    destruct (gossip_targets _ _ dests) as [ts|] eqn:Ets; [|done].
    destruct (send_gossip n ts) as [n1 out1] eqn:Es. simplify_eq.
    destruct (send_gossip_props _ _ _ _ Es) as (-> & _ & Hf).
    split; [eauto|].
    intros g ps Hg Hd Hps.
    apply list_elem_of_lookup in Hg as [i Hi].
    destruct (Forall2_lookup_r _ _ _ _ _ Hf Hi) as ([d ps'] & Hti & Hgi).
    rewrite Hgi in Hd, Hps. simpl in Hd, Hps. simplify_eq.
    destruct (gossip_targets_in _ _ _ _ _ _ Ets (list_elem_of_lookup_2 _ _ _ Hti))
      as (k' & Hk' & ->).
    rewrite Hk in Hk'. simplify_eq. by apply pending_not_known.
  - discriminate.
  - unfold step, reply, send_to in H. simpl in Ht.
    destruct (payload (body m)) eqn:Ep; simplify_eq/=;
      try (split; [eauto|set_solver]).
    destruct (known_ids n !! src m) as [k0|] eqn:Ek0; simplify_eq/=.
    split; [|set_solver].
    destruct (decide (src m = D)) as [Heq|Hne].
    + rewrite Heq in Ek0 |- *. rewrite lookup_insert_eq. rewrite Hk in Ek0.
      simplify_eq.
      eexists. split; [done|]. set_solver.
    + rewrite lookup_insert_ne by done. eauto.
Qed.

Lemma run_no_gossip_back n evs D k v :
  Forall (λ e, is_topology e = false) evs →
  known_ids n !! D = Some k → v ∈ k →
  ∀ g ps, g ∈ fst (run n evs) → dst g = D → payload (body g) = Gossip ps →
  v ∉ ps.
Proof.
  revert n k. induction evs as [|e es IH]; intros n k Hall Hk Hv g ps Hg Hd Hps;
    simpl in Hg.
  - set_solver.
  - apply Forall_cons in Hall as [He Hall].
    destruct (step n e) as [| |n1 out] eqn:E; simpl in Hg; try set_solver.
    destruct (step_no_gossip_back _ _ _ _ _ _ _ He Hk Hv E)
      as [(k' & Hk' & Hv') Hout].
    destruct (run n1 es) as [out' st] eqn:Er. simpl in Hg.
    apply elem_of_app in Hg as [Hg|Hg]; [by eapply Hout|].
    eapply (IH n1 k'); eauto. by rewrite Er.
Qed.

Lemma step_keeps_self n e n' out :
  keeps_self (node_id n) e = true → is_Some (topology n !! node_id n) →
  step n e = Stepped n' out →
  node_id n' = node_id n ∧ is_Some (topology n' !! node_id n').
Proof.
  intros Hks Hs H. destruct e as [[]|m].
  - unfold step in H. case_decide; [simplify_eq/=; done|].
    repeat case_match; simplify_eq/=.
    match goal with E : send_gossip _ _ = _ |- _ =>
      destruct (send_gossip_props _ _ _ _ E) as (-> & _ & _) end. done.
  - discriminate.
  - unfold step, reply, send_to in H. simpl in Hks.
    destruct (payload (body m)) eqn:Ep; simplify_eq/=;
      try (case_match; simplify_eq/=); try done.
    split; [done|]. apply elem_of_dom. by apply bool_decide_eq_true in Hks.
Qed.

Lemma run_keeps_self n evs n' :
  Forall (λ e, keeps_self (node_id n) e = true) evs →
  is_Some (topology n !! node_id n) →
  status_node (snd (run n evs)) = Some n' →
  node_id n' = node_id n ∧ is_Some (topology n' !! node_id n').
Proof.
  revert n. induction evs as [|e es IH]; intros n Hall Hs H; simpl in H.
  - by simplify_eq/=.
  - apply Forall_cons in Hall as [He Hall].
    destruct (step n e) as [| |n1 out] eqn:E; simpl in H; try by simplify_eq/=.
    destruct (step_keeps_self _ _ _ _ He Hs E) as [Hid Hs1].
    destruct (run n1 es) as [out' st] eqn:Er. simpl in H.
    rewrite <-Hid in Hall. rewrite <-Hid.
    apply IH; [done|done|]. by rewrite Er.
Qed.

(** ** The earlier node of src/src/lib.rs

    [Node<UninitializedNode>::initialize], [Node<IntializedNode>::
    process_messages], [broadcast], [send] and the free [send_to].  Input
    is the stream of already deserialized messages ([while let Some(input)]
    ends when it is exhausted); deserialization and write errors are not
    modelled. *)
Module Lib.

Module messages.

Inductive Payload :=
| Init (node_id : string) (node_ids : list string)
| InitOk
| Echo (echo : string)
| EchoOk (echo : string)
| Generate
| GenerateOk (id : string)
| Broadcast (message : Z)
| BroadcastOk
| Read
| ReadOk (messages : list Z)
| Topology (topology : gmap string (list string))
| TopologyOk.

Record Body := mkBody {
  msg_id : option nat;
  in_reply_to : option nat;
  payload : Payload
}.

Record Mesg := mkMesg {
  src : string;
  dst : string;
  body : Body
}.

End messages.

Import messages.

(** [IntializedNode] without its streams; [msg_id] is the node's counter
    (the body's field is [messages.msg_id]). *)
Record IntializedNode := mkNode {
  node_id : string;
  cluster : gset string;
  topology : gmap string (list string);
  msg_id : nat;
  broadcast_ids : list Z
}.

(** The free function [send_to]. *)
Definition send_to (from to : string) (mid : nat) (irt : option nat) (p : Payload)
    : Mesg :=
  mkMesg from to (mkBody (Some mid) irt p).

(** [Node::send]: write with the current counter, then increment it. *)
Definition send (s : IntializedNode) (to : string) (irt : option nat) (p : Payload)
    : IntializedNode * Mesg :=
  (mkNode (node_id s) (cluster s) (topology s) (S (msg_id s)) (broadcast_ids s),
   send_to (node_id s) to (msg_id s) irt p).

(** The [try_for_each] of [Node::broadcast]. *)
Fixpoint send_all (s : IntializedNode) (dests : list string) (p : Payload)
    : IntializedNode * list Mesg :=
  match dests with
  | [] => (s, [])
  | d :: ds =>
      let (s1, m) := send s d None p in
      let (s2, ms) := send_all s1 ds p in
      (s2, m :: ms)
  end.

(** [Node::broadcast]: the [expect] on the own topology entry. *)
Definition broadcast (s : IntializedNode) (p : Payload)
    : option (IntializedNode * list Mesg) :=
  match topology s !! node_id s with
  | None => None
  | Some dests => Some (send_all s dests p)
  end.

(** [Node<UninitializedNode>::initialize] on the first message. *)
Definition initialize (mesg : Mesg) : option (IntializedNode * Mesg) :=
  match payload (body mesg) with
  | Init nid nids =>
      let r := send_to nid (src mesg) 0 (messages.msg_id (body mesg)) InitOk in
      let cl : gset string := list_to_set nids ∖ {[nid]} in
      Some (mkNode nid cl (<[nid := elements cl]> ∅) 1 [], r)
  | _ => None
  end.

Inductive StepResult :=
| Panicked
| Stepped (s : IntializedNode) (out : list Mesg).

Definition reply (s : IntializedNode) (m : Mesg) (p : Payload) : StepResult :=
  let (s', r) := send s (src m) (messages.msg_id (body m)) p in Stepped s' [r].

(** One iteration of the loop of [process_messages]; [todo!] panics. *)
Definition step (s : IntializedNode) (m : Mesg) : StepResult :=
  match payload (body m) with
  | Init _ _ | InitOk => Panicked
  | Echo e => reply s m (EchoOk e)
  | Generate => reply s m (GenerateOk (node_id s +:+ "-" +:+ pretty (msg_id s)))
  | Broadcast v =>
      let s1 := mkNode (node_id s) (cluster s) (topology s) (msg_id s)
                  (broadcast_ids s ++ [v]) in
      match broadcast s1 (Broadcast v) with
      | None => Panicked
      | Some (s2, outs) =>
          let (s3, r) := send s2 (src m) (messages.msg_id (body m)) BroadcastOk in
          Stepped s3 (outs ++ [r])
      end
  | Read => reply s m (ReadOk (broadcast_ids s))
  | Topology t =>
      reply (mkNode (node_id s) (cluster s) t (msg_id s) (broadcast_ids s)) m TopologyOk
  | EchoOk _ | GenerateOk _ | BroadcastOk | ReadOk _ | TopologyOk => Stepped s []
  end.

(** [process_messages]: the output and the node once the stream is
    exhausted ([None] after a panic). *)
Fixpoint process_messages (s : IntializedNode) (ms : list Mesg)
    : list Mesg * option IntializedNode :=
  match ms with
  | [] => ([], Some s)
  | m :: rest =>
      match step s m with
      | Panicked => ([], None)
      | Stepped s' out => let (out', st) := process_messages s' rest in (out ++ out', st)
      end
  end.

(** [initialize] then [process_messages]; an empty stream fails the
    [expect("expected an 'init' message")]. *)
Definition program (ms : list Mesg) : list Mesg * option IntializedNode :=
  match ms with
  | [] => ([], None)
  | m :: rest =>
      match initialize m with
      | None => ([], None)
      | Some (s, r) => let (out, st) := process_messages s rest in (r :: out, st)
      end
  end.

(** Values the node records from a message. *)
Definition broadcast_values (m : Mesg) : list Z :=
  match payload (body m) with Broadcast v => [v] | _ => [] end.

End Lib.

(** ** Claims *)

(** C8: the messages written by one node, from the [init_ok] on, carry the
    [msg_id]s 0, 1, ..., N-1 in order, whatever their kind; in particular
    no [msg_id] is used twice. *)
Theorem msg_ids_consecutive evs :
  ids (fst (program evs)) = map Some (seq 0 (length (fst (program evs)))) ∧
  NoDup (ids (fst (program evs))).
Proof.
  assert (Hseq : ids (fst (program evs)) =
                 map Some (seq 0 (length (fst (program evs))))).
  { destruct evs as [|e es]; simpl; [done|].
    destruct (initialize new_node e) as [[n r]|] eqn:E; simpl; [|done].
    pose proof (run_counter n es) as Hr.
    destruct (run n es) as [out st]; simpl in *.
    unfold initialize in E. repeat case_match; simplify_eq/=.
    rewrite Hr, <-seq_shift, map_map. reflexivity. }
  split; [exact Hseq|]. rewrite Hseq.
  apply NoDup_fmap_2; [congruence|]. apply NoDup_seq.
Qed.

(** C10: a tick while the broadcast set is empty sends nothing and leaves
    the whole node state, counter, topology and known-ids included,
    unchanged. *)
Theorem tick_empty_frame n :
  broadcast_ids n = ∅ → step n (Internal Timer) = Stepped n [].
Proof. intros H. simpl. by rewrite decide_True. Qed.

Lemma tick_empty_frame_witness :
  broadcast_ids new_node = ∅ ∧ step new_node (Internal Timer) = Stepped new_node [].
Proof. split; [reflexivity|]. apply tick_empty_frame. reflexivity. Defined.

(** C3: gossip from a sender with a known-ids entry adds every value of the
    list to the broadcast set and to the sender's entry, and emits no
    message. *)
Theorem gossip_receive n m ms k :
  payload (body m) = Gossip ms →
  known_ids n !! src m = Some k →
  ∃ n', step n (External m) = Stepped n' [] ∧
    broadcast_ids n' = broadcast_ids n ∪ list_to_set ms ∧
    known_ids n' = <[src m := k ∪ list_to_set ms]> (known_ids n) ∧
    node_id n' = node_id n ∧ topology n' = topology n ∧
    uniq_msg_id n' = uniq_msg_id n ∧
    (∀ v, v ∈ ms → v ∈ broadcast_ids n' ∧
       ∃ k', known_ids n' !! src m = Some k' ∧ v ∈ k').
Proof.
  intros Hp Hk. eexists. unfold step. rewrite Hp, Hk.
  split; [reflexivity|]. simpl. do 5 (split; [done|]).
  intros v Hv. split; [set_solver|].
  eexists. rewrite lookup_insert_eq. split; [done|]. set_solver.
Qed.

Lemma gossip_receive_witness :
  let m := mkMessage "n2" "n1" (mkBody None None (Gossip [3%Z; 4%Z])) in
  let n := with_known_ids new_node ∅ (<["n2" := ∅]> ∅) in
  payload (body m) = Gossip [3%Z; 4%Z] ∧ known_ids n !! src m = Some ∅ ∧
  ∃ n', step n (External m) = Stepped n' [] ∧
    broadcast_ids n' = broadcast_ids n ∪ list_to_set [3%Z; 4%Z] ∧
    known_ids n' = <[src m := ∅ ∪ list_to_set [3%Z; 4%Z]]> (known_ids n) ∧
    node_id n' = node_id n ∧ topology n' = topology n ∧
    uniq_msg_id n' = uniq_msg_id n ∧
    (∀ v, v ∈ [3%Z; 4%Z] → v ∈ broadcast_ids n' ∧
       ∃ k', known_ids n' !! src m = Some k' ∧ v ∈ k').
Proof.
  intros m n. split; [reflexivity|]. split; [reflexivity|].
  apply gossip_receive; reflexivity.
Defined.

(** C6: a topology message replaces the topology by the given mapping,
    re-seeds known-ids with exactly one empty set per key of the new
    mapping other than this node (whatever the table held before), and
    answers [topology_ok] to the sender. *)
Theorem topology_replace n m t :
  payload (body m) = Topology t →
  ∃ n' r, step n (External m) = Stepped n' [r] ∧
    topology n' = t ∧
    (∀ k, known_ids n' !! k =
            if decide (k ≠ node_id n ∧ k ∈ dom t) then Some ∅ else None) ∧
    payload (body r) = TopologyOk ∧ dst r = src m ∧
    in_reply_to (body r) = msg_id (body m) ∧
    node_id n' = node_id n ∧ broadcast_ids n' = broadcast_ids n.
Proof.
  intros Hp. do 2 eexists. unfold step, reply. rewrite Hp.
  split; [reflexivity|]. simpl. split; [done|].
  split; [apply reseed_known_lookup|]. done.
Qed.

Lemma topology_replace_witness :
  let t : gmap string (list string) := <["n1" := ["n2"]]> (<["n2" := ["n1"]]> ∅) in
  let m := mkMessage "c0" "n1" (mkBody (Some 7) None (Topology t)) in
  let n := with_known_ids (with_topology new_node ∅ ∅) ∅ (<["n2" := {[1%Z]}]> ∅) in
  payload (body m) = Topology t ∧
  ∃ n' r, step n (External m) = Stepped n' [r] ∧
    topology n' = t ∧
    (∀ k, known_ids n' !! k =
            if decide (k ≠ node_id n ∧ k ∈ dom t) then Some ∅ else None) ∧
    payload (body r) = TopologyOk ∧ dst r = src m ∧
    in_reply_to (body r) = msg_id (body m) ∧
    node_id n' = node_id n ∧ broadcast_ids n' = broadcast_ids n.
Proof.
  intros t m n. split; [reflexivity|]. apply topology_replace. reflexivity.
Defined.

(** C7: along any sequence of events the broadcast set only grows, and
    inserting values already present (by [broadcast] or by [gossip])
    leaves it unchanged. *)
Theorem broadcast_set_monotone n evs :
  (∀ n', status_node (snd (run n evs)) = Some n' →
         broadcast_ids n ⊆ broadcast_ids n') ∧
  (∀ m v n' out, payload (body m) = Broadcast v → v ∈ broadcast_ids n →
     step n (External m) = Stepped n' out → broadcast_ids n' = broadcast_ids n) ∧
  (∀ m ms n' out, payload (body m) = Gossip ms →
     (∀ v, v ∈ ms → v ∈ broadcast_ids n) →
     step n (External m) = Stepped n' out → broadcast_ids n' = broadcast_ids n).
Proof.
  split; [|split].
  - intros n'. apply run_bids_mono.
  - intros m v n' out Hp Hv H. unfold step in H. rewrite Hp in H.
    simplify_eq/=. set_solver.
  - intros m ms n' out Hp Hms H. unfold step in H. rewrite Hp in H.
    case_match; simplify_eq/=.
    apply set_eq. intros x. rewrite elem_of_union, elem_of_list_to_set.
    split; [intros [?|?]; auto|auto].
Qed.

Definition mono_events : list Event :=
  [client_msg "c1" 1 (Broadcast 5);
   client_msg "c0" 2 (Topology (<["n1" := ["n2"]]> (<["n2" := ["n1"]]> ∅)));
   client_msg "c1" 3 (Broadcast 5)].

Lemma broadcast_set_monotone_witness :
  let n0 := with_broadcast_ids (with_uniq new_node 1) {[9%Z]} in
  ∃ n', status_node (snd (run n0 mono_events)) = Some n' ∧
        broadcast_ids n0 ⊆ broadcast_ids n'.
Proof.
  intros n0.
  exists (default n0 (status_node (snd (run n0 mono_events)))).
  assert (E : status_node (snd (run n0 mono_events)) =
              Some (default n0 (status_node (snd (run n0 mono_events))))).
  { vm_compute. reflexivity. }
  split; [exact E|]. apply (proj1 (broadcast_set_monotone n0 mono_events)).
  exact E.
Defined.

(** C9: the [generate_ok] at output position [i] has [msg_id] [i] and the
    id [node_id ++ "-" ++ i], [node_id] being the id adopted at [init]
    (the [src] of every message of the node); hence two [generate_ok]
    replies of one node never carry the same id. *)
Theorem generate_ok_id m0 nid nids es i g id :
  payload (body m0) = Init nid nids →
  fst (program (External m0 :: es)) !! i = Some g →
  payload (body g) = GenerateOk id →
  src g = nid ∧ msg_id (body g) = Some i ∧ id = nid +:+ "-" +:+ pretty i ∧
  (∀ j g' id', fst (program (External m0 :: es)) !! j = Some g' →
     payload (body g') = GenerateOk id' → j ≠ i → id' ≠ id).
Proof.
  intros Hp Hg Hid.
  pose proof (program_generate_shape _ _ _ es Hp) as Hall.
  pose proof (proj1 (msg_ids_consecutive (External m0 :: es))) as Hseq.
  set (out := fst (program (External m0 :: es))) in *.
  assert (Hk : ∀ j g', out !! j = Some g' → msg_id (body g') = Some j).
  { intros j g' Hj.
    assert (Hl : ids out !! j = Some (msg_id (body g'))).
    { unfold ids. by rewrite list_lookup_fmap, Hj. }
    rewrite Hseq, list_lookup_fmap, lookup_seq_lt in Hl.
    - by simplify_eq/=.
    - by apply lookup_lt_Some in Hj. }
  assert (Hshape : ∀ j g' id', out !! j = Some g' →
            payload (body g') = GenerateOk id' →
            src g' = nid ∧ id' = nid +:+ "-" +:+ pretty j).
  { intros j g' id' Hj Hid'.
    rewrite Forall_lookup in Hall. destruct (Hall _ _ Hj) as [Hs Hgen].
    destruct (Hgen _ Hid') as (k & Hk' & ->). rewrite (Hk _ _ Hj) in Hk'.
    by simplify_eq. }
  destruct (Hshape _ _ _ Hg Hid) as [Hs ->].
  split; [done|]. split; [by apply Hk|]. split; [done|].
  intros j g' id' Hj Hid' Hne Heq.
  destruct (Hshape _ _ _ Hj Hid') as [_ ->].
  apply (inj (String.append nid)), (inj (String.append "-")), (inj pretty)
    in Heq.
  done.
Qed.

Definition generate_events : list Event :=
  [init_n1; client_msg "c1" 1 Generate; client_msg "c2" 1 Generate].

Lemma generate_ok_id_witness :
  payload (body (mkMessage "c0" "n1" (mkBody (Some 0) None (Init "n1" ["n1"; "n2"]))))
    = Init "n1" ["n1"; "n2"] ∧
  fst (program generate_events) !! 2 =
    Some (mkMessage "n1" "c2" (mkBody (Some 2) (Some 1) (GenerateOk "n1-2"))) ∧
  src (mkMessage "n1" "c2" (mkBody (Some 2) (Some 1) (GenerateOk "n1-2"))) = "n1" ∧
  msg_id (body (mkMessage "n1" "c2" (mkBody (Some 2) (Some 1) (GenerateOk "n1-2"))))
    = Some 2 ∧
  "n1-2" = "n1" +:+ "-" +:+ pretty (2 : nat).
Proof.
  split; [reflexivity|]. split; [vm_compute; reflexivity|].
  destruct (generate_ok_id (mkMessage "c0" "n1" (mkBody (Some 0) None
              (Init "n1" ["n1"; "n2"]))) "n1" ["n1"; "n2"]
              (tail generate_events) 2
              (mkMessage "n1" "c2" (mkBody (Some 2) (Some 1) (GenerateOk "n1-2")))
              "n1-2")
    as (Hs & Hm & Hid & _); [reflexivity|vm_compute; reflexivity|reflexivity|].
  auto.
Defined.

(** C4: once a neighbour [D] has gossiped a value [v] to this node, no
    gossip sent to [D] by later ticks carries [v], as long as no topology
    message intervenes. *)
Theorem no_gossip_back n m ms v evs :
  payload (body m) = Gossip ms → v ∈ ms →
  Forall (λ e, is_topology e = false) evs →
  ∀ g ps, g ∈ fst (run n (External m :: evs)) → dst g = src m →
  payload (body g) = Gossip ps → v ∉ ps.
Proof.
  intros Hp Hv Hall g ps Hg Hd Hps. simpl in Hg. unfold step in Hg.
  rewrite Hp in Hg.
  destruct (known_ids n !! src m) as [k|] eqn:Ek; simpl in Hg; [|set_solver].
  destruct (run _ evs) as [out st] eqn:Er. simpl in Hg.
  eapply (run_no_gossip_back
            (with_known_ids n (broadcast_ids n ∪ list_to_set ms)
               (<[src m := k ∪ list_to_set ms]> (known_ids n)))
            evs (src m) (k ∪ list_to_set ms) v Hall).
  - simpl. apply lookup_insert_eq.
  - set_solver.
  - rewrite Er. exact Hg.
  - exact Hd.
  - exact Hps.
Qed.

Definition gossip_node : Node :=
  mkNode "n1" ["n1"; "n2"] (<["n1" := ["n2"]]> ∅) 0 {[5%Z]} (<["n2" := ∅]> ∅).

Definition gossip_from_n2 : Message :=
  mkMessage "n2" "n1" (mkBody None None (Gossip [5%Z])).

Definition gossip_events : list Event :=
  [Internal Timer; client_msg "c1" 1 (Broadcast 6); Internal Timer].

Lemma no_gossip_back_witness :
  payload (body gossip_from_n2) = Gossip [5%Z] ∧ (5%Z ∈ [5%Z]) ∧
  Forall (λ e, is_topology e = false) gossip_events ∧
  mkMessage "n1" "n2" (mkBody (Some 1) None (Gossip [6%Z]))
    ∈ fst (run gossip_node (External gossip_from_n2 :: gossip_events)) ∧
  5%Z ∉ [6%Z].
Proof.
  assert (Hin : mkMessage "n1" "n2" (mkBody (Some 1) None (Gossip [6%Z]))
    ∈ fst (run gossip_node (External gossip_from_n2 :: gossip_events))).
  { assert (E : fst (run gossip_node (External gossip_from_n2 :: gossip_events)) =
      [mkMessage "n1" "c1" (mkBody (Some 0) (Some 1) BroadcastOk);
       mkMessage "n1" "n2" (mkBody (Some 1) None (Gossip [6%Z]))]).
    { vm_compute. reflexivity. }
    rewrite E. apply list_elem_of_further, list_elem_of_here. }
  split; [reflexivity|]. split; [left|].
  split; [repeat constructor|]. split; [exact Hin|].
  exact (no_gossip_back gossip_node gossip_from_n2 [5%Z] 5%Z gossip_events
           eq_refl (list_elem_of_here _ _)
           ltac:(repeat constructor) _ [6%Z] Hin eq_refl eq_refl).
Defined.

(** C5 fails: a topology message whose mapping has no key for this node
    replaces the topology wholesale, dropping the node's own entry. *)
Lemma topology_without_self_drops_entry :
  ∃ n, snd (program [init_n1;
          client_msg "c0" 1 (Topology (<["n2" := ["n1"]]> ∅))]) = Waiting n ∧
       node_id n = "n1" ∧ topology n !! "n1" = None.
Proof. eexists. vm_compute. split; [reflexivity|]. split; reflexivity. Qed.

(** C5, as the code has it: after [init] the topology has an entry for the
    node's own id, and it keeps one across every sequence of events in which
    each topology message's mapping has a key for that id. *)
Theorem self_topology_entry_kept m0 nid nids es n' :
  payload (body m0) = Init nid nids →
  Forall (λ e, keeps_self nid e = true) es →
  status_node (snd (program (External m0 :: es))) = Some n' →
  node_id n' = nid ∧ is_Some (topology n' !! nid).
Proof.
  intros Hp Hall H. unfold program, initialize in H. rewrite Hp in H.
  simpl in H. destruct (run _ es) as [out st] eqn:Er. simpl in H.
  match type of Er with run ?n0 _ = _ =>
    destruct (run_keeps_self n0 es n') as [Hid Hs] end.
  - exact Hall.
  - simpl. rewrite lookup_insert_eq. by eexists.
  - by rewrite Er.
  - rewrite Hid in Hs |- *. done.
Qed.

Definition keeps_self_events : list Event :=
  [client_msg "c1" 1 (Broadcast 5);
   client_msg "c0" 2 (Topology (<["n1" := ["n2"]]> (<["n2" := ["n1"]]> ∅)));
   Internal Timer].

Lemma self_topology_entry_kept_witness :
  ∃ n', status_node (snd (program (init_n1 :: keeps_self_events))) = Some n' ∧
        node_id n' = "n1" ∧ is_Some (topology n' !! "n1").
Proof.
  set (n' := default new_node (status_node (snd (program (init_n1 :: keeps_self_events))))).
  assert (E : status_node (snd (program (init_n1 :: keeps_self_events))) = Some n').
  { vm_compute. reflexivity. }
  exists n'. split; [exact E|].
  apply (self_topology_entry_kept
           (mkMessage "c0" "n1" (mkBody (Some 0) None (Init "n1" ["n1"; "n2"])))
           "n1" ["n1"; "n2"] keeps_self_events n').
  - reflexivity.
  - repeat constructor.
  - exact E.
Defined.

(** C2 evaluated: [init {node_id: "n1", node_ids: ["n1", "n2"]}] maps
    "n1" to the whole cluster, itself included, and seeds known-ids with
    a bucket for "n1" only, none for the peer "n2". *)
Theorem init_seeding_n1 :
  ∃ n r, initialize new_node init_n1 = Some (n, r) ∧
    node_id n = "n1" ∧ cluster n = ["n1"; "n2"] ∧
    topology n = <["n1" := ["n1"; "n2"]]> ∅ ∧
    known_ids n = <["n1" := ∅]> ∅ ∧
    known_ids n !! "n2" = None ∧
    payload (body r) = InitOk ∧ in_reply_to (body r) = Some 0.
Proof. do 2 eexists. split; [reflexivity|]. vm_compute. repeat split. Qed.

(** C1 evaluated: after [init {node_id: "n1", node_ids: ["n1", "n2"]}] and
    [broadcast 5], the broadcast set is non-empty and the neighbour "n2" of
    the node's own topology entry has no known-ids bucket, so the next tick
    aborts on [expect("always have a known_for bucket")] instead of sending
    [gossip [5]] to "n2". *)
Theorem tick_after_init_aborts :
  ∃ n, snd (program [init_n1; client_msg "c1" 1 (Broadcast 5)]) = Waiting n ∧
    broadcast_ids n = {[5%Z]} ∧
    topology n !! "n1" = Some ["n1"; "n2"] ∧
    known_ids n !! "n2" = None ∧
    step n (Internal Timer) = Panicked ∧
    program [init_n1; client_msg "c1" 1 (Broadcast 5); Internal Timer] =
      ([mkMessage "n1" "c0" (mkBody (Some 0) (Some 0) InitOk);
        mkMessage "n1" "c1" (mkBody (Some 1) (Some 1) BroadcastOk)], Aborted).
Proof.
  eexists. split; [vm_compute; reflexivity|].
  vm_compute. repeat split.
Qed.

(** ** Further properties of the node loop *)

Lemma pending_spec bids k v : v ∈ pending bids k ↔ v ∈ bids ∧ v ∉ k.
Proof. unfold pending. rewrite list_elem_of_filter, elem_of_elements. tauto. Qed.

Lemma pending_NoDup bids k : NoDup (pending bids k).
Proof. unfold pending. apply NoDup_filter, NoDup_elements. Qed.

Lemma gossip_targets_none bids known dests :
  gossip_targets bids known dests = None ↔ ∃ d, d ∈ dests ∧ known !! d = None.
Proof.
  induction dests as [|d ds IH]; simpl.
  - split; [done|]. intros (d & Hd & _). set_solver.
  - destruct (known !! d) as [k|] eqn:Ek.
    + destruct (gossip_targets bids known ds) as [rest|] eqn:Er.
      * split; [destruct (pending bids k); done|].
        intros (d' & Hd' & Hn). apply elem_of_cons in Hd' as [->|Hd'].
        -- congruence.
        -- assert (Some rest = None) by (apply IH; eauto). done.
      * split; [|done]. intros _.
        destruct (proj1 IH eq_refl) as (d' & ? & ?). exists d'. set_solver.
    + split; [|done]. intros _. exists d. set_solver.
Qed.

Lemma gossip_targets_dests bids known dests ts :
  gossip_targets bids known dests = Some ts → map fst ts `sublist_of` dests.
Proof.
  revert ts. induction dests as [|d ds IH]; intros ts H; simpl in H.
  - injection H as <-. constructor.
  - destruct (known !! d) as [k|]; [|done].
    destruct (gossip_targets bids known ds) as [rest|] eqn:Er; [|done].
    destruct (pending bids k); injection H as <-.
    + apply sublist_cons. by apply IH.
    + simpl. apply sublist_skip. by apply IH.
Qed.

Lemma gossip_targets_complete bids known dests ts d k :
  gossip_targets bids known dests = Some ts → d ∈ dests →
  known !! d = Some k → pending bids k ≠ [] → (d, pending bids k) ∈ ts.
Proof.
  revert ts. induction dests as [|d' ds IH]; intros ts H Hd Hk Hp; simpl in H.
  - set_solver.
  - destruct (known !! d') as [k'|] eqn:Ek'; [|done].
    destruct (gossip_targets bids known ds) as [rest|] eqn:Er; [|done].
    apply elem_of_cons in Hd as [->|Hd].
    + rewrite Hk in Ek'. injection Ek' as <-.
      destruct (pending bids k) eqn:Ep; [done|]. injection H as <-. left.
    + destruct (pending bids k'); injection H as <-.
      * by apply IH.
      * right. by apply IH.
Qed.

Lemma gossip_targets_nonempty bids known dests ts d ps :
  gossip_targets bids known dests = Some ts → (d, ps) ∈ ts → ps ≠ [].
Proof.
  revert ts. induction dests as [|d' ds IH]; intros ts H Hin; simpl in H.
  - injection H as <-. set_solver.
  - destruct (known !! d') as [k'|]; [|done].
    destruct (gossip_targets bids known ds) as [rest|] eqn:Er; [|done].
    destruct (pending bids k') as [|x xs] eqn:Ep; injection H as <-.
    + by eapply IH.
    + apply elem_of_cons in Hin as [Heq|Hin].
      * injection Heq as -> ->. done.
      * by eapply IH.
Qed.

Lemma Forall2_gossip_dst n (ts : list (string * list Z)) out :
  Forall2 (λ (t : string * list Z) g,
             g = mkMessage (node_id n) t.1 (mkBody (msg_id (body g)) None (Gossip t.2)))
          ts out →
  map dst out = map fst ts.
Proof.
  induction 1 as [|t g ts out Hg _ IH]; [done|]. simpl. rewrite IH, Hg. done.
Qed.

(** A tick with a non-empty broadcast set, an own topology entry and a
    known-ids bucket for every neighbour sends, in the order of the
    neighbour list, one gossip (not a reply) per neighbour that misses a
    value, carrying exactly the values of the set that neighbour is not
    known to hold, each once; only the counter changes. *)
Theorem tick_gossip n dests :
  broadcast_ids n ≠ ∅ → topology n !! node_id n = Some dests →
  (∀ d, d ∈ dests → is_Some (known_ids n !! d)) →
  ∃ out, step n (Internal Timer) =
           Stepped (with_uniq n (uniq_msg_id n + length out)) out ∧
    map dst out `sublist_of` dests ∧
    (∀ g, g ∈ out → src g = node_id n ∧ in_reply_to (body g) = None ∧
       ∃ k ps, known_ids n !! dst g = Some k ∧ payload (body g) = Gossip ps ∧
         ps ≠ [] ∧ NoDup ps ∧ ∀ v, v ∈ ps ↔ v ∈ broadcast_ids n ∧ v ∉ k) ∧
    (∀ d k, d ∈ dests → known_ids n !! d = Some k →
       (∃ v, v ∈ broadcast_ids n ∧ v ∉ k) → ∃ g, g ∈ out ∧ dst g = d).
Proof.
  intros Hne Hdests Hall. unfold step. rewrite decide_False by done. rewrite Hdests.
  destruct (gossip_targets _ _ dests) as [ts|] eqn:Ets.
  2:{ apply gossip_targets_none in Ets as (d & Hd & Hn).
      destruct (Hall d Hd) as [k Hk]. congruence. }
  destruct (send_gossip n ts) as [n' out] eqn:Es.
  destruct (send_gossip_props _ _ _ _ Es) as (-> & _ & Hf).
  pose proof (Forall2_length _ _ _ Hf) as Hlen.
  pose proof (Forall2_gossip_dst _ _ _ Hf) as Hdst.
  exists out. rewrite Hlen. split; [done|]. split.
  { rewrite Hdst. by eapply gossip_targets_dests. }
  split.
  - intros g Hg. apply list_elem_of_lookup in Hg as [i Hi].
    destruct (Forall2_lookup_r _ _ _ _ _ Hf Hi) as ([d ps] & Hti & Hgi).
    rewrite Hgi. simpl. do 2 (split; [done|]).
    destruct (gossip_targets_in _ _ _ _ _ _ Ets (list_elem_of_lookup_2 _ _ _ Hti))
      as (k & Hk & ->).
    exists k, (pending (broadcast_ids n) k). split; [done|]. split; [done|].
    split; [|split; [apply pending_NoDup|intros v; apply pending_spec]].
    eapply gossip_targets_nonempty; [exact Ets|]. by eapply list_elem_of_lookup_2.
  - intros d k Hd Hk (v & Hv & Hvk).
    assert (Hp : pending (broadcast_ids n) k ≠ []).
    { intros Hnil. assert (v ∈ pending (broadcast_ids n) k) as Hin
        by (apply pending_spec; done). rewrite Hnil in Hin. set_solver. }
    pose proof (gossip_targets_complete _ _ _ _ _ _ Ets Hd Hk Hp) as Hin.
    apply list_elem_of_lookup in Hin as [i Hi].
    destruct (Forall2_lookup_l _ _ _ _ _ Hf Hi) as (g & Hgi & Hg).
    exists g. split; [by eapply list_elem_of_lookup_2|]. by rewrite Hg.
Qed.

Lemma tick_gossip_witness :
  broadcast_ids gossip_node ≠ ∅ ∧
  topology gossip_node !! node_id gossip_node = Some ["n2"] ∧
  (∀ d, d ∈ ["n2"] → is_Some (known_ids gossip_node !! d)) ∧
  ∃ out, step gossip_node (Internal Timer) =
           Stepped (with_uniq gossip_node (uniq_msg_id gossip_node + length out)) out ∧
    map dst out `sublist_of` ["n2"] ∧
    (∀ g, g ∈ out → src g = node_id gossip_node ∧ in_reply_to (body g) = None ∧
       ∃ k ps, known_ids gossip_node !! dst g = Some k ∧ payload (body g) = Gossip ps ∧
         ps ≠ [] ∧ NoDup ps ∧
         ∀ v, v ∈ ps ↔ v ∈ broadcast_ids gossip_node ∧ v ∉ k) ∧
    (∀ d k, d ∈ ["n2"] → known_ids gossip_node !! d = Some k →
       (∃ v, v ∈ broadcast_ids gossip_node ∧ v ∉ k) → ∃ g, g ∈ out ∧ dst g = d).
Proof.
  assert (H1 : broadcast_ids gossip_node ≠ ∅).
  { intros H. assert (5%Z ∈ broadcast_ids gossip_node) as H5 by (simpl; set_solver).
    rewrite H in H5. set_solver. }
  assert (H3 : ∀ d, d ∈ ["n2"] → is_Some (known_ids gossip_node !! d)).
  { intros d Hd. apply list_elem_of_singleton in Hd as ->. simpl. by eexists. }
  split; [exact H1|]. split; [reflexivity|]. split; [exact H3|].
  apply tick_gossip; [exact H1|reflexivity|exact H3].
Defined.

(** With a non-empty broadcast set, a tick aborts exactly when the node has
    no topology entry of its own or one of its neighbours has no known-ids
    bucket. *)
Theorem tick_aborts_iff n :
  broadcast_ids n ≠ ∅ →
  (step n (Internal Timer) = Panicked ↔
     topology n !! node_id n = None ∨
     ∃ dests d, topology n !! node_id n = Some dests ∧ d ∈ dests ∧
                known_ids n !! d = None).
Proof.
  intros Hne. unfold step. rewrite decide_False by done.
  destruct (topology n !! node_id n) as [dests|] eqn:Et.
  - destruct (gossip_targets _ _ dests) as [ts|] eqn:Ets.
    + destruct (send_gossip n ts). split; [done|].
      intros [?|(dests' & d & Hd' & Hd & Hn)]; [done|].
      injection Hd' as <-. assert (Some ts = None) by
        (rewrite <-Ets; apply gossip_targets_none; eauto). done.
    + split; [|done]. intros _. right.
      apply gossip_targets_none in Ets as (d & ? & ?). eauto.
  - split; auto.
Qed.

Definition orphan_node : Node :=
  mkNode "n1" ["n1"; "n2"] (<["n1" := ["n2"; "n3"]]> ∅) 0 {[5%Z]} (<["n2" := ∅]> ∅).

Lemma tick_aborts_iff_witness :
  broadcast_ids orphan_node ≠ ∅ ∧
  step orphan_node (Internal Timer) = Panicked ∧
  ∃ dests d, topology orphan_node !! node_id orphan_node = Some dests ∧ d ∈ dests ∧
             known_ids orphan_node !! d = None.
Proof.
  assert (H1 : broadcast_ids orphan_node ≠ ∅).
  { intros H. assert (5%Z ∈ broadcast_ids orphan_node) as H5 by (simpl; set_solver).
    rewrite H in H5. set_solver. }
  split; [exact H1|].
  assert (Hp : step orphan_node (Internal Timer) = Panicked) by (vm_compute; reflexivity).
  split; [exact Hp|].
  destruct (proj1 (tick_aborts_iff orphan_node H1) Hp) as [Hn|Hs]; [|exact Hs].
  discriminate.
Defined.




(** Request payloads: the ones [Node::run] answers. *)
Definition is_request (p : ExternalPayload) : bool :=
  match p with
  | Echo _ | Generate | Broadcast _ | Read | Topology _ => true
  | _ => false
  end.

(** Every request gets exactly one reply, sent by this node to the
    request's sender, answering the request's [msg_id] and numbered with
    the current counter; an [echo] is answered with the same text. *)
Theorem request_single_reply n m :
  is_request (payload (body m)) = true →
  ∃ n' r, step n (External m) = Stepped n' [r] ∧
    src r = node_id n ∧ dst r = src m ∧
    in_reply_to (body r) = msg_id (body m) ∧
    msg_id (body r) = Some (uniq_msg_id n) ∧
    uniq_msg_id n' = S (uniq_msg_id n) ∧
    ∀ e, payload (body m) = Echo e → payload (body r) = EchoOk e.
Proof.
  intros Hr. unfold step, reply, send_to.
  destruct (payload (body m)) eqn:Ep; try discriminate; simpl;
    do 2 eexists; (split; [reflexivity|]); simpl;
    repeat split; intros e' He'; congruence.
Qed.

Lemma request_single_reply_witness :
  let m := mkMessage "c1" "n1" (mkBody (Some 4) None (Echo "hi")) in
  is_request (payload (body m)) = true ∧
  ∃ n' r, step gossip_node (External m) = Stepped n' [r] ∧
    src r = node_id gossip_node ∧ dst r = src m ∧
    in_reply_to (body r) = msg_id (body m) ∧
    msg_id (body r) = Some (uniq_msg_id gossip_node) ∧
    uniq_msg_id n' = S (uniq_msg_id gossip_node) ∧
    ∀ e, payload (body m) = Echo e → payload (body r) = EchoOk e.
Proof.
  intros m. split; [reflexivity|]. apply request_single_reply. reflexivity.
Defined.



(** [read] answers with the broadcast set: every member exactly once. *)
Theorem read_reply n m :
  payload (body m) = Read →
  ∃ n' r ms, step n (External m) = Stepped n' [r] ∧
    payload (body r) = ReadOk ms ∧ NoDup ms ∧
    (∀ v, v ∈ ms ↔ v ∈ broadcast_ids n) ∧ broadcast_ids n' = broadcast_ids n.
Proof.
  intros Hp. unfold step, reply, send_to. rewrite Hp. simpl.
  do 3 eexists. split; [reflexivity|]. split; [reflexivity|].
  split; [apply NoDup_elements|]. split; [|done]. intros v. apply elem_of_elements.
Qed.

Lemma read_reply_witness :
  let m := mkMessage "c1" "n1" (mkBody (Some 2) None Read) in
  payload (body m) = Read ∧
  ∃ n' r ms, step gossip_node (External m) = Stepped n' [r] ∧
    payload (body r) = ReadOk ms ∧ NoDup ms ∧
    (∀ v, v ∈ ms ↔ v ∈ broadcast_ids gossip_node) ∧
    broadcast_ids n' = broadcast_ids gossip_node.
Proof. intros m. split; [reflexivity|]. apply read_reply. reflexivity. Defined.

(** A [broadcast v] followed by a [read] answers with a list containing
    [v]: the value is inserted before the next event is handled. *)
Theorem broadcast_then_read n mb mr v :
  payload (body mb) = Broadcast v → payload (body mr) = Read →
  ∃ rb rr ms, fst (run n [External mb; External mr]) = [rb; rr] ∧
    payload (body rb) = BroadcastOk ∧ payload (body rr) = ReadOk ms ∧ v ∈ ms.
Proof.
  intros Hb Hr. unfold run, step, reply, send_to. rewrite Hb, Hr. simpl.
  do 3 eexists. split; [reflexivity|]. do 2 (split; [reflexivity|]).
  apply elem_of_elements. set_solver.
Qed.

Lemma broadcast_then_read_witness :
  let mb := mkMessage "c1" "n1" (mkBody (Some 1) None (Broadcast 8)) in
  let mr := mkMessage "c2" "n1" (mkBody (Some 1) None Read) in
  payload (body mb) = Broadcast 8 ∧ payload (body mr) = Read ∧
  ∃ rb rr ms, fst (run gossip_node [External mb; External mr]) = [rb; rr] ∧
    payload (body rb) = BroadcastOk ∧ payload (body rr) = ReadOk ms ∧ 8%Z ∈ ms.
Proof.
  intros mb mr. split; [reflexivity|]. split; [reflexivity|].
  apply broadcast_then_read; reflexivity.
Defined.

(** Running two batches of events one after the other is running their
    concatenation: the second batch starts from where the first left the
    node, and is not looked at once the first has stopped the loop. *)
Theorem run_app n evs1 evs2 :
  run n (evs1 ++ evs2) =
  match run n evs1 with
  | (out1, Waiting n1) => let (out2, st) := run n1 evs2 in (out1 ++ out2, st)
  | r => r
  end.
Proof.
  revert n. induction evs1 as [|e es IH]; intros n; simpl.
  - by destruct (run n evs2).
  - destruct (step n e) as [| |n1 out]; try done.
    rewrite IH. destruct (run n1 es) as [o1 [n2| |]]; try done.
    destruct (run n2 evs2). by rewrite app_assoc.
Qed.

(** Nothing after [Eof] is read: the output and the final state do not
    depend on the events queued behind it. *)
Theorem eof_stops_loop n evs1 evs2 evs2' :
  run n (evs1 ++ Internal Eof :: evs2) = run n (evs1 ++ Internal Eof :: evs2').
Proof.
  rewrite !run_app. destruct (run n evs1) as [o [n1| |]]; try done.
Qed.

(** Values an event brings into the broadcast set. *)
Definition event_values (e : Event) : list Z :=
  match e with
  | External m =>
      match payload (body m) with
      | Broadcast v => [v]
      | Gossip ms => ms
      | _ => []
      end
  | Internal _ => []
  end.

Lemma step_bids_exact n e n' out :
  step n e = Stepped n' out →
  broadcast_ids n' = broadcast_ids n ∪ list_to_set (event_values e).
Proof.
  intros H. destruct e as [[]|m].
  - unfold step in H. simpl. case_decide; [simplify_eq/=; set_solver|].
    repeat case_match; simplify_eq/=.
    match goal with E : send_gossip _ _ = _ |- _ =>
      destruct (send_gossip_props _ _ _ _ E) as (-> & _ & _) end. set_solver.
  - discriminate.
  - unfold step, reply, send_to in H. simpl.
    destruct (payload (body m)); simplify_eq/=; try set_solver.
    case_match; simplify_eq/=. set_solver.
Qed.

(** When every event of a batch has been handled, the broadcast set is
    exactly the starting set plus the values of the [broadcast] and
    [gossip] messages of the batch. *)
Theorem run_broadcast_ids n evs n' :
  snd (run n evs) = Waiting n' →
  broadcast_ids n' = broadcast_ids n ∪ list_to_set (concat (map event_values evs)).
Proof.
  revert n. induction evs as [|e es IH]; intros n H; simpl in H.
  - injection H as <-. simpl. set_solver.
  - destruct (step n e) as [| |n1 out] eqn:E; try discriminate.
    destruct (run n1 es) as [o st] eqn:Er. simpl in H.
    rewrite (IH n1) by (by rewrite Er). rewrite (step_bids_exact _ _ _ _ E).
    simpl. rewrite list_to_set_app_L. set_solver.
Qed.

Lemma run_broadcast_ids_witness :
  ∃ n', snd (run gossip_node mono_events) = Waiting n' ∧
    broadcast_ids n' =
    broadcast_ids gossip_node ∪ list_to_set (concat (map event_values mono_events)).
Proof.
  set (n' := default gossip_node (status_node (snd (run gossip_node mono_events)))).
  assert (E : snd (run gossip_node mono_events) = Waiting n') by (vm_compute; reflexivity).
  exists n'. split; [exact E|]. exact (run_broadcast_ids _ _ _ E).
Defined.

(** Known-ids buckets are created and dropped only by topology messages:
    every other event keeps the set of neighbours that have a bucket. *)
Theorem known_ids_dom_kept n e n' out :
  is_topology e = false → step n e = Stepped n' out →
  dom (known_ids n') = dom (known_ids n).
Proof.
  intros Ht H. destruct e as [[]|m].
  - unfold step in H. case_decide; [simplify_eq/=; done|].
    repeat case_match; simplify_eq/=.
    match goal with E : send_gossip _ _ = _ |- _ =>
      destruct (send_gossip_props _ _ _ _ E) as (-> & _ & _) end. done.
  - discriminate.
  - unfold step, reply, send_to in H. simpl in Ht.
    destruct (payload (body m)); simplify_eq/=; try done.
    case_match; simplify_eq/=. rewrite dom_insert_L.
    apply elem_of_dom_2 in H0. set_solver.
Qed.

Lemma known_ids_dom_kept_witness :
  let m := mkMessage "n2" "n1" (mkBody None None (Gossip [7%Z])) in
  is_topology (External m) = false ∧
  ∃ n' out, step gossip_node (External m) = Stepped n' out ∧
    dom (known_ids n') = dom (known_ids gossip_node).
Proof.
  intros m. split; [reflexivity|].
  set (r := step gossip_node (External m)).
  assert (E : r = Stepped (match r with Stepped n _ => n | _ => gossip_node end) []).
  { vm_compute. reflexivity. }
  do 2 eexists. split; [exact E|]. exact (known_ids_dom_kept gossip_node (External m) _ _ eq_refl E).
Defined.



(** Every message the node writes, [init_ok] included, has as [src] the
    node id adopted from the [init] message. *)
Theorem program_src m0 nid nids es :
  payload (body m0) = Init nid nids →
  Forall (λ g, src g = nid) (fst (program (External m0 :: es))).
Proof.
  intros Hp. eapply Forall_impl; [exact (program_generate_shape _ _ _ es Hp)|].
  by intros g [Hs _].
Qed.

Lemma program_src_witness :
  payload (body (mkMessage "c0" "n1" (mkBody (Some 0) None (Init "n1" ["n1"; "n2"]))))
    = Init "n1" ["n1"; "n2"] ∧
  Forall (λ g, src g = "n1") (fst (program generate_events)).
Proof.
  split; [reflexivity|].
  exact (program_src (mkMessage "c0" "n1" (mkBody (Some 0) None (Init "n1" ["n1"; "n2"])))
           "n1" ["n1"; "n2"] (tail generate_events) eq_refl).
Defined.

(** ** Properties of the earlier node of src/src/lib.rs *)

Module LibProofs.

Import Lib.messages.
Import Lib.

Definition lib_ids (l : list Mesg) : list (option nat) :=
  map (λ g, messages.msg_id (body g)) l.

Definition with_counter (s : IntializedNode) (k : nat) : IntializedNode :=
  mkNode (node_id s) (cluster s) (topology s) k (broadcast_ids s).

Lemma send_all_props s dests p s' out :
  send_all s dests p = (s', out) →
  s' = with_counter s (msg_id s + length dests) ∧
  lib_ids out = map Some (seq (msg_id s) (length dests)) ∧
  map (λ g, (src g, dst g, in_reply_to (body g), payload (body g))) out =
  map (λ d, (node_id s, d, None, p)) dests.
Proof.
  revert s s' out. induction dests as [|d ds IH]; intros s s' out H; simpl in H.
  - injection H as <- <-. unfold with_counter. destruct s; simpl.
    by rewrite Nat.add_0_r.
  - destruct (send_all _ ds p) as [s2 ms] eqn:E. injection H as <- <-.
    destruct (IH _ _ _ E) as (-> & Hids & Hmap). simpl in *.
    split; [|split].
    + unfold with_counter; simpl. f_equal. lia.
    + simpl. by rewrite Hids.
    + simpl. by rewrite Hmap.
Qed.

Lemma lib_step_counter s m s' out :
  step s m = Stepped s' out →
  lib_ids out = map Some (seq (msg_id s) (length out)) ∧
  msg_id s' = msg_id s + length out.
Proof.
  intros H. unfold step, reply, send, broadcast in H.
  destruct (payload (body m)) eqn:Ep; simplify_eq/=; try (split; [done|lia]).
  destruct (topology s !! node_id s) as [dests|]; [|done].
  destruct (send_all _ dests _) as [s2 outs] eqn:E. simplify_eq/=.
  destruct (send_all_props _ _ _ _ _ E) as (-> & Hids & Hmap). simpl in *.
  assert (Hl : length outs = length dests).
  { rewrite <-(length_map (λ g, (src g, dst g, in_reply_to (body g), payload (body g)))),
      Hmap, length_map. done. }
  rewrite length_app, Hl. simpl. split; [|lia].
  unfold lib_ids in *. rewrite map_app, Hids, Nat.add_1_r, seq_S, map_app. done.
Qed.

Lemma lib_process_counter s ms :
  lib_ids (fst (process_messages s ms)) =
  map Some (seq (msg_id s) (length (fst (process_messages s ms)))).
Proof.
  revert s. induction ms as [|m ms IH]; intros s; simpl; [done|].
  destruct (step s m) as [|s' out] eqn:E; simpl; [done|].
  destruct (lib_step_counter _ _ _ _ E) as [Hids Hu].
  specialize (IH s'). destruct (process_messages s' ms) as [out' st]; simpl in *.
  unfold lib_ids in *. rewrite map_app, Hids, IH, Hu, length_app, seq_app, map_app.
  done.
Qed.

(** The earlier node also numbers everything it writes 0, 1, ..., N-1:
    [init_ok] gets 0 and the counter starts at 1 after it. *)
Theorem lib_msg_ids_consecutive ms :
  lib_ids (fst (program ms)) = map Some (seq 0 (length (fst (program ms)))).
Proof.
  destruct ms as [|m rest]; simpl; [done|].
  destruct (initialize m) as [[s r]|] eqn:E; simpl; [|done].
  pose proof (lib_process_counter s rest) as Hr.
  destruct (process_messages s rest) as [out st]; simpl in *.
  unfold initialize in E. destruct (payload (body m)); simplify_eq/=.
  rewrite Hr, <-seq_shift, map_map. reflexivity.
Qed.

(** The earlier initializer drops the node itself from the cluster (the
    HashSet also drops repeated ids) and points the node at every other
    member; [init_ok] is sent with [msg_id] 0 answering the init's id. *)
Theorem lib_initialize m nid nids :
  payload (body m) = Init nid nids →
  ∃ s r, initialize m = Some (s, r) ∧
    r = mkMesg nid (src m) (mkBody (Some 0) (messages.msg_id (body m)) InitOk) ∧
    node_id s = nid ∧ (nid ∉ cluster s) ∧
    (∀ x, x ∈ cluster s ↔ x ∈ nids ∧ x ≠ nid) ∧
    topology s = <[nid := elements (cluster s)]> ∅ ∧
    NoDup (elements (cluster s)) ∧ msg_id s = 1 ∧ broadcast_ids s = [].
Proof.
  intros Hp. unfold initialize. rewrite Hp. do 2 eexists.
  split; [reflexivity|]. split; [reflexivity|]. simpl.
  split; [done|]. split; [set_solver|]. split.
  - intros x. rewrite elem_of_difference, elem_of_list_to_set, elem_of_singleton. done.
  - split; [done|]. split; [apply NoDup_elements|done].
Qed.

Lemma lib_initialize_witness :
  let m := mkMesg "c0" "n1" (mkBody (Some 0) None (Init "n1" ["n1"; "n2"; "n2"])) in
  payload (body m) = Init "n1" ["n1"; "n2"; "n2"] ∧
  ∃ s r, initialize m = Some (s, r) ∧
    r = mkMesg "n1" (src m) (mkBody (Some 0) (messages.msg_id (body m)) InitOk) ∧
    node_id s = "n1" ∧ ("n1" ∉ cluster s) ∧
    (∀ x, x ∈ cluster s ↔ x ∈ ["n1"; "n2"; "n2"] ∧ x ≠ "n1") ∧
    topology s = <["n1" := elements (cluster s)]> ∅ ∧
    NoDup (elements (cluster s)) ∧ msg_id s = 1 ∧ broadcast_ids s = [].
Proof. intros m. split; [reflexivity|]. apply lib_initialize. reflexivity. Defined.

(** The earlier node floods: a [broadcast v] appends [v] to the recorded
    values, forwards [broadcast v] (no [in_reply_to]) to every neighbour of
    its own topology entry in order, then answers [broadcast_ok]; without an
    own topology entry it panics. *)
Theorem lib_broadcast s m v :
  payload (body m) = Broadcast v →
  match topology s !! node_id s with
  | None => step s m = Panicked
  | Some dests =>
      ∃ s' out, step s m = Stepped s' out ∧
        broadcast_ids s' = broadcast_ids s ++ [v] ∧ topology s' = topology s ∧
        map (λ g, (dst g, in_reply_to (body g), payload (body g))) out =
        map (λ d, (d, None, Broadcast v)) dests ++
          [(src m, messages.msg_id (body m), BroadcastOk)]
  end.
Proof.
  intros Hp. unfold step, broadcast. rewrite Hp. simpl.
  destruct (topology s !! node_id s) as [dests|] eqn:Et; [|done].
  destruct (send_all _ dests _) as [s2 outs] eqn:E.
  destruct (send_all_props _ _ _ _ _ E) as (-> & _ & Hmap). simpl in *.
  do 2 eexists. split; [reflexivity|]. simpl. do 2 (split; [done|]).
  rewrite map_app. f_equal.
  apply (f_equal (map (λ '(a, b, c, d), (b, c, d)))) in Hmap.
  rewrite !map_map in Hmap. exact Hmap.
Qed.

Definition lib_node : IntializedNode :=
  mkNode "n1" {[ "n2" ]} (<["n1" := ["n2"]]> ∅) 1 [].

Lemma lib_broadcast_witness :
  let m := mkMesg "c1" "n1" (mkBody (Some 3) None (Broadcast 5)) in
  payload (body m) = Broadcast 5 ∧
  ∃ s' out, step lib_node m = Stepped s' out ∧
    broadcast_ids s' = broadcast_ids lib_node ++ [5%Z] ∧
    topology s' = topology lib_node ∧
    map (λ g, (dst g, in_reply_to (body g), payload (body g))) out =
    map (λ d, (d, None, Broadcast 5)) ["n2"] ++
      [(src m, messages.msg_id (body m), BroadcastOk)].
Proof.
  intros m. split; [reflexivity|]. exact (lib_broadcast lib_node m 5 eq_refl).
Defined.

Lemma lib_step_values s m s' out :
  step s m = Stepped s' out → broadcast_ids s' = broadcast_ids s ++ broadcast_values m.
Proof.
  intros H. unfold step, reply, send, broadcast in H. unfold broadcast_values.
  destruct (payload (body m)); simplify_eq/=; try by rewrite app_nil_r.
  destruct (topology s !! node_id s) as [dests|]; [|done].
  destruct (send_all _ dests _) as [s2 outs] eqn:E. simplify_eq/=.
  by destruct (send_all_props _ _ _ _ _ E) as (-> & _ & _).
Qed.

(** The earlier node keeps the broadcast values as a list in arrival
    order, repetitions included, and [read] answers with that list. *)
Theorem lib_read_all_values s ms s' :
  snd (process_messages s ms) = Some s' →
  broadcast_ids s' = broadcast_ids s ++ concat (map broadcast_values ms) ∧
  ∀ mr, payload (body mr) = Read →
    ∃ s'' r, step s' mr = Stepped s'' [r] ∧
      payload (body r) = ReadOk (broadcast_ids s ++ concat (map broadcast_values ms)).
Proof.
  intros H.
  assert (Hb : broadcast_ids s' = broadcast_ids s ++ concat (map broadcast_values ms)).
  { revert s H. induction ms as [|m ms IH]; intros s H; simpl in H.
    - injection H as <-. by rewrite app_nil_r.
    - destruct (step s m) as [|s1 out] eqn:E; [done|].
      destruct (process_messages s1 ms) as [o st] eqn:Er. simpl in H.
      rewrite (IH s1) by (by rewrite Er). rewrite (lib_step_values _ _ _ _ E).
      simpl. by rewrite app_assoc. }
  split; [exact Hb|]. intros mr Hr. unfold step, reply, send. rewrite Hr.
  do 2 eexists. split; [reflexivity|]. simpl. by rewrite Hb.
Qed.

Definition lib_twice : list Mesg :=
  [mkMesg "c1" "n1" (mkBody (Some 1) None (Broadcast 5));
   mkMesg "c2" "n1" (mkBody (Some 1) None (Broadcast 5))].

Lemma lib_read_all_values_witness :
  ∃ s', snd (process_messages lib_node lib_twice) = Some s' ∧
    broadcast_ids s' = [5%Z; 5%Z] ∧
    ∃ s'' r, step s' (mkMesg "c3" "n1" (mkBody (Some 1) None Read)) = Stepped s'' [r] ∧
      payload (body r) = ReadOk [5%Z; 5%Z].
Proof.
  set (s' := default lib_node (snd (process_messages lib_node lib_twice))).
  assert (E : snd (process_messages lib_node lib_twice) = Some s')
    by (vm_compute; reflexivity).
  destruct (lib_read_all_values _ _ _ E) as [Hb Hr].
  exists s'. split; [exact E|]. split; [exact Hb|].
  exact (Hr (mkMesg "c3" "n1" (mkBody (Some 1) None Read)) eq_refl).
Defined.

End LibProofs.
